(** * SkyLightBridge.h: the declarations of the SkyLight bridge header

    The source file [Wallpaper Scenes/SkyLightBridge.h] holds no executable
    code: a [#pragma once], two [#include] lines, one [typedef] and three
    [extern] prototypes.  The embedding is therefore the header itself, as
    the list of its top-level items in source order, together with the rules
    of C that give those items a meaning: which names an item declares, how
    a type name resolves through the typedefs in scope, which integers a
    resolved type holds, how a call is checked against a prototype, and what
    [#pragma once] does when the file is included again. *)

From Stdlib Require Import String List ZArith Lia Bool.
Import ListNotations.
Open Scope string_scope.

(** ** Syntax of a header *)

Module CSyntax.

(** A type as it is written in a declaration: a keyword or a name that a
    typedef in scope has to explain. *)
Inductive tspec : Type :=
| TVoid
| TInt
| TName (n : string).

Record param : Type := mkParam { p_type : tspec; p_name : string }.

(** A parameter list: [(void)] or a list of typed, named parameters. *)
Inductive plist : Type :=
| PVoid
| PList (ps : list param).

Inductive storage : Type :=
| Extern
| Static
| NoStorage.

(** Statements of a function body.  The header has none; the constructors
    are what a body would be made of. *)
Inductive stmt : Type :=
| SSkip
| SExpr (e : string)
| SAssign (lhs rhs : string)
| SReturn (e : option string)
| SSeq (s1 s2 : stmt)
| SIf (cond : string) (then_ else_ : stmt)
| SWhile (cond : string) (body : stmt).

(** The top-level items a C header can hold. *)
Inductive item : Type :=
| PragmaOnce
| Include (path : string)
| Define (name : string) (formals : option (list string)) (body : string)
| Typedef (t : tspec) (name : string)
| StructDef (name : string) (fields : list param)
| EnumDef (name : string) (enumerators : list (string * Z))
| VarDecl (st : storage) (t : tspec) (name : string) (init : option string)
| FunDecl (st : storage) (ret : tspec) (name : string) (ps : plist)
| FunDef (st : storage) (ret : tspec) (name : string) (ps : plist)
         (body : stmt).

End CSyntax.

Import CSyntax.

(** ** The header *)

(** The name under which the file is included. *)
Definition header_name : string := "SkyLightBridge.h".

(** Lines 12 to 23 of the file, item by item: the pragma (line 12), the two
    includes (14, 15), the typedef (18) and the three prototypes (21, 22,
    23).  Every other line is a comment or blank. *)
Definition SkyLightBridge_h : list item :=
  [ PragmaOnce;
    Include "CoreFoundation/CoreFoundation.h";
    Include "stdint.h";
    Typedef TInt "CGError";
    FunDecl Extern (TName "CFArrayRef") "CGSCopyManagedDisplaySpaces"
      (PList [mkParam (TName "uint32_t") "connection"]);
    FunDecl Extern (TName "CGError") "CGSSetDesktopImageURL"
      (PList [mkParam (TName "uint32_t") "connection";
              mkParam (TName "int64_t") "spaceID";
              mkParam (TName "CFURLRef") "url";
              mkParam (TName "CFDictionaryRef") "options"]);
    FunDecl Extern (TName "uint32_t") "CGSMainConnectionID" PVoid ].

(** ** What an item declares *)

Inductive symkind : Type :=
| KFunction
| KType
| KVariable
| KMacro.

(** The symbols one item introduces.  An enumeration introduces its tag as
    a type and its enumerators as named constants. *)
Definition symbols_of (i : item) : list (symkind * string) :=
  match i with
  | PragmaOnce => []
  | Include _ => []
  | Define n _ _ => [(KMacro, n)]
  | Typedef _ n => [(KType, n)]
  | StructDef n _ => [(KType, n)]
  | EnumDef n es => (KType, n) :: map (fun e => (KVariable, fst e)) es
  | VarDecl _ _ n _ => [(KVariable, n)]
  | FunDecl _ _ n _ => [(KFunction, n)]
  | FunDef _ _ n _ _ => [(KFunction, n)]
  end.

(** The symbols a header's own lines declare, in source order. *)
Definition surface (h : list item) : list (symkind * string) :=
  flat_map symbols_of h.

Definition symkind_eqb (a b : symkind) : bool :=
  match a, b with
  | KFunction, KFunction | KType, KType
  | KVariable, KVariable | KMacro, KMacro => true
  | _, _ => false
  end.

Definition names_of_kind (k : symkind) (h : list item) : list string :=
  map snd (filter (fun s => symkind_eqb (fst s) k) (surface h)).

(** ** Prototypes *)

Record fsig : Type := mkSig
  { f_storage : storage;
    f_ret : tspec;
    f_params : plist;
    f_body : option stmt }.

(** The parameters a parameter list stands for: [(void)] is none. *)
Definition params_of (ps : plist) : list param :=
  match ps with
  | PVoid => []
  | PList l => l
  end.

Definition arity (s : fsig) : nat := length (params_of (f_params s)).

(** The functions of a header with their signatures, in source order. *)
Definition functions (h : list item) : list (string * fsig) :=
  flat_map (fun i =>
    match i with
    | FunDecl st r n ps => [(n, mkSig st r ps None)]
    | FunDef st r n ps b => [(n, mkSig st r ps (Some b))]
    | _ => []
    end) h.

Fixpoint assoc {A : Type} (k : string) (l : list (string * A)) : option A :=
  match l with
  | [] => None
  | (k', v) :: rest => if String.eqb k k' then Some v else assoc k rest
  end.

Definition lookup_fun (h : list item) (name : string) : option fsig :=
  assoc name (functions h).

(** The function bodies of a header: the statements it would execute. *)
Definition bodies (h : list item) : list stmt :=
  flat_map (fun i =>
    match i with
    | FunDef _ _ _ _ b => [b]
    | _ => []
    end) h.

(** The structures and enumerations a header defines. *)
Definition data_definitions (h : list item) : list string :=
  flat_map (fun i =>
    match i with
    | StructDef n _ => [n]
    | EnumDef n _ => [n]
    | _ => []
    end) h.

(** The named integer constants a header gives: enumerators and object-like
    macros.  An error-code table would live here. *)
Definition named_constants (h : list item) : list string :=
  flat_map (fun i =>
    match i with
    | EnumDef _ es => map fst es
    | Define n None _ => [n]
    | _ => []
    end) h.

(** ** Types and their values *)

(** A type once its typedefs are resolved. *)
Inductive rtype : Type :=
| RVoid
| RSigned (bits : Z)
| RUnsigned (bits : Z)
| ROpaqueRef (tag : string)
| RUnknown (n : string).

Definition tenv : Type := list (string * rtype).

(** The width of [int] on every target of the platform (ILP32 and LP64). *)
Definition int_bits : Z := 32.

(** Modelled from the spec: the typedefs that [<stdint.h>] and
    [<CoreFoundation/CoreFoundation.h>] bring into scope are not in src/.
    [uint32_t] is the unsigned 32-bit integer and [int64_t] the signed
    64-bit integer (the exact-width types of the C standard); [CFArrayRef],
    [CFURLRef] and [CFDictionaryRef] are references to opaque objects, each
    with a tag of its own. *)
Definition system_types (path : string) : tenv :=
  if String.eqb path "stdint.h" then
    [ ("uint32_t", RUnsigned 32); ("int64_t", RSigned 64) ]
  else if String.eqb path "CoreFoundation/CoreFoundation.h" then
    [ ("CFArrayRef", ROpaqueRef "__CFArray");
      ("CFURLRef", ROpaqueRef "__CFURL");
      ("CFDictionaryRef", ROpaqueRef "__CFDictionary") ]
  else [].

(** A written type resolved in the typedefs in scope. *)
Definition resolve (env : tenv) (t : tspec) : rtype :=
  match t with
  | TVoid => RVoid
  | TInt => RSigned int_bits
  | TName n =>
      match assoc n env with
      | Some r => r
      | None => RUnknown n
      end
  end.

(** The integers a resolved type holds. *)
Definition in_range (r : rtype) (z : Z) : bool :=
  match r with
  | RSigned b => (- 2 ^ (b - 1) <=? z)%Z && (z <? 2 ^ (b - 1))%Z
  | RUnsigned b => (0 <=? z)%Z && (z <? 2 ^ b)%Z
  | _ => false
  end.

(** A prototype with its types resolved; parameters keep their names. *)
Record rsig : Type := mkRsig
  { r_ret : rtype;
    r_params : list (string * rtype) }.

(** What is in scope after a run of items: typedefs and prototypes. *)
Record scope : Type := mkScope
  { types : tenv;
    protos : list (string * rsig) }.

Definition empty_scope : scope := mkScope [] [].

Definition resolve_sig (env : tenv) (ret : tspec) (ps : plist) : rsig :=
  mkRsig (resolve env ret)
         (map (fun p => (p_name p, resolve env (p_type p))) (params_of ps)).

(** One item read in a scope.  A declaration sees the typedefs above it. *)
Definition bind_item (sc : scope) (i : item) : scope :=
  match i with
  | Include path => mkScope (system_types path ++ types sc)%list (protos sc)
  | Typedef t n => mkScope ((n, resolve (types sc) t) :: types sc) (protos sc)
  | FunDecl _ r n ps =>
      mkScope (types sc) (protos sc ++ [(n, resolve_sig (types sc) r ps)])%list
  | FunDef _ r n ps _ =>
      mkScope (types sc) (protos sc ++ [(n, resolve_sig (types sc) r ps)])%list
  | _ => sc
  end.

Definition elaborate (h : list item) : scope :=
  fold_left bind_item h empty_scope.

(** ** Calls *)

(** An argument value: an integer, or a reference to an opaque object. *)
Inductive cvalue : Type :=
| VInt (z : Z)
| VRef (tag : string) (addr : Z).

(** A value belongs to a resolved type: an integer in the type's range, a
    reference with the type's tag.  This is what a parameter holds once the
    call is made, after the argument has been converted. *)
Definition has_type (r : rtype) (v : cvalue) : bool :=
  match r, v with
  | RSigned _, VInt z => in_range r z
  | RUnsigned _, VInt z => in_range r z
  | ROpaqueRef t, VRef t' _ => String.eqb t t'
  | _, _ => false
  end.

Fixpoint args_ok (ps : list (string * rtype)) (args : list cvalue) : bool :=
  match ps, args with
  | [], [] => true
  | (_, r) :: ps', v :: args' => has_type r v && args_ok ps' args'
  | _, _ => false
  end.

(** The type of the call [f(args)] in a header's scope, on the argument
    values as the callee receives them: the prototype's result type when [f]
    is declared and the values belong to its parameters' types one for one,
    nothing otherwise.  An argument that C converts first (an integer out of
    the parameter's range, the constant 0 for a reference) goes through
    [call_converted] below. *)
Definition call_type (h : list item) (f : string) (args : list cvalue)
  : option rtype :=
  match assoc f (protos (elaborate h)) with
  | None => None
  | Some s => if args_ok (r_params s) args then Some (r_ret s) else None
  end.

(** ** Arguments as written, and their conversion *)

(** An argument as the caller writes it: an integer expression with its
    value, the constant 0, or a reference to an opaque object. *)
Inductive carg : Type :=
| AInt (z : Z)
| AZero
| ARef (tag : string) (addr : Z).

(** An integer brought into an integer type: reduced modulo 2^bits for an
    unsigned type, wrapped around into the signed range for a signed type
    (what the compilers of the platform do for a value that does not fit). *)
Definition wrap (r : rtype) (z : Z) : Z :=
  match r with
  | RUnsigned b => (z mod 2 ^ b)%Z
  | RSigned b => ((z + 2 ^ (b - 1)) mod 2 ^ b - 2 ^ (b - 1))%Z
  | _ => z
  end.

(** The conversion of an argument to the type of its parameter, as if by
    assignment.  An integer converts to any integer type; the constant 0 is
    the integer 0 and the null reference; a reference converts to a
    reference of its own tag.  An integer other than the constant 0 does
    not convert to a reference, nor a reference to an integer or to a
    reference of another tag. *)
Definition convert (r : rtype) (a : carg) : option cvalue :=
  match r, a with
  | RSigned _, AInt z => Some (VInt (wrap r z))
  | RUnsigned _, AInt z => Some (VInt (wrap r z))
  | RSigned _, AZero => Some (VInt 0)
  | RUnsigned _, AZero => Some (VInt 0)
  | ROpaqueRef t, AZero => Some (VRef t 0)
  | ROpaqueRef t, ARef t' a => if String.eqb t t' then Some (VRef t a) else None
  | _, _ => None
  end.

Fixpoint convert_args (ps : list (string * rtype)) (args : list carg)
  : option (list cvalue) :=
  match ps, args with
  | [], [] => Some []
  | (_, r) :: ps', a :: args' =>
      match convert r a, convert_args ps' args' with
      | Some v, Some vs => Some (v :: vs)
      | _, _ => None
      end
  | _, _ => None
  end.

(** The call [f(args)] on arguments as written: the values the callee
    receives and the type of the result, when [f] is declared, the
    arguments are as many as the parameters and each converts. *)
Definition call_converted (h : list item) (f : string) (args : list carg)
  : option (list cvalue * rtype) :=
  match assoc f (protos (elaborate h)) with
  | None => None
  | Some s =>
      match convert_args (r_params s) args with
      | Some vs => Some (vs, r_ret s)
      | None => None
      end
  end.

(** An integer type has a positive width; other types ask for nothing. *)
Definition positive_width (r : rtype) : Prop :=
  match r with
  | RSigned b => (0 < b)%Z
  | RUnsigned b => (0 < b)%Z
  | _ => True
  end.

(** ** Inclusion *)

(** A translation unit while it is preprocessed: the files marked
    [#pragma once] so far, and the items emitted so far. *)
Record tu : Type := mkTu
  { once_files : list string;
    emitted : list item }.

Definition empty_tu : tu := mkTu [] [].

Definition marked_once (file : string) (s : tu) : bool :=
  existsb (String.eqb file) (once_files s).

(** One item of [file] entering the unit: the pragma marks the file, any
    other item is emitted (a system [#include] is kept for [elaborate]). *)
Definition enter_item (file : string) (s : tu) (i : item) : tu :=
  match i with
  | PragmaOnce => mkTu (file :: once_files s) (emitted s)
  | _ => mkTu (once_files s) (emitted s ++ [i])%list
  end.

(** [#include "file"]: skipped when the file is marked, read otherwise. *)
Definition include_file (file : string) (body : list item) (s : tu) : tu :=
  if marked_once file s then s else fold_left (enter_item file) body s.

Definition include_header : tu -> tu :=
  include_file header_name SkyLightBridge_h.

(** The header with its first line, the pragma, taken out. *)
Definition unguarded_header : list item := tl SkyLightBridge_h.

(** ** The alias next to the type it names *)

(** The values of the plain integer type [int], as the platform has it:
    the signed integers of [int_bits] bits. *)
Definition int_value (z : Z) : Prop :=
  (- 2 ^ (int_bits - 1) <= z < 2 ^ (int_bits - 1))%Z.

(** The values of [CGError], read off the header: the integers that the type
    the name resolves to can hold. *)
Definition CGError_value (z : Z) : Prop :=
  in_range (resolve (types (elaborate SkyLightBridge_h)) (TName "CGError")) z
  = true.

(** ** Resolved and unresolved types *)

(** A resolved type is known when it is not a name left unexplained. *)
Definition known (r : rtype) : bool :=
  match r with
  | RUnknown _ => false
  | _ => true
  end.

(** A prototype is known when its result and every parameter are. *)
Definition sig_known (s : rsig) : bool :=
  known (r_ret s) && forallb (fun p => known (snd p)) (r_params s).

(** The items of a body that reach the unit: all but the pragma. *)
Definition emitted_items (body : list item) : list item :=
  filter (fun i => match i with PragmaOnce => false | _ => true end) body.

(** ** Basic facts *)

Lemma in_range_unsigned (b z : Z) :
  in_range (RUnsigned b) z = true <-> (0 <= z < 2 ^ b)%Z.
Proof.
  unfold in_range. rewrite andb_true_iff, Z.leb_le, Z.ltb_lt. tauto.
Qed.

Lemma in_range_signed (b z : Z) :
  in_range (RSigned b) z = true <-> (- 2 ^ (b - 1) <= z < 2 ^ (b - 1))%Z.
Proof.
  unfold in_range. rewrite andb_true_iff, Z.leb_le, Z.ltb_lt. tauto.
Qed.

(** The scope the header leaves behind. *)
Lemma elaborate_header :
  elaborate SkyLightBridge_h =
  mkScope
    [ ("CGError", RSigned 32);
      ("uint32_t", RUnsigned 32);
      ("int64_t", RSigned 64);
      ("CFArrayRef", ROpaqueRef "__CFArray");
      ("CFURLRef", ROpaqueRef "__CFURL");
      ("CFDictionaryRef", ROpaqueRef "__CFDictionary") ]
    [ ("CGSCopyManagedDisplaySpaces",
       mkRsig (ROpaqueRef "__CFArray") [("connection", RUnsigned 32)]);
      ("CGSSetDesktopImageURL",
       mkRsig (RSigned 32)
         [ ("connection", RUnsigned 32);
           ("spaceID", RSigned 64);
           ("url", ROpaqueRef "__CFURL");
           ("options", ROpaqueRef "__CFDictionary") ]);
      ("CGSMainConnectionID", mkRsig (RUnsigned 32) []) ].
Proof. reflexivity. Qed.

(** A call of a declared function, spelled out: it is typed exactly when
    the arguments fit the resolved parameters. *)
Lemma call_type_declared (h : list item) (f : string) (s : rsig)
      (args : list cvalue) :
  assoc f (protos (elaborate h)) = Some s ->
  call_type h f args = if args_ok (r_params s) args then Some (r_ret s) else None.
Proof. intros H. unfold call_type. rewrite H. reflexivity. Qed.

Lemma args_ok_length (ps : list (string * rtype)) (args : list cvalue) :
  args_ok ps args = true -> length args = length ps.
Proof.
  revert args. induction ps as [| [n r] ps IH]; intros [| v args]; cbn;
    try discriminate; try reflexivity.
  rewrite andb_true_iff. intros [_ H]. f_equal. now apply IH.
Qed.

(** *** Inclusion of a guarded file *)

Lemma marked_once_In (file : string) (s : tu) :
  marked_once file s = true <-> In file (once_files s).
Proof.
  unfold marked_once. rewrite existsb_exists. split.
  - intros [x [Hx E]]. apply String.eqb_eq in E. now subst.
  - intros H. exists file. split; [assumption | apply String.eqb_refl].
Qed.

Lemma enter_items_keep_marks (file : string) (body : list item) :
  forall (s : tu) (f : string),
    In f (once_files s) ->
    In f (once_files (fold_left (enter_item file) body s)).
Proof.
  induction body as [| i body IH]; intros s f H; cbn; [assumption |].
  apply IH. destruct i; cbn; auto.
Qed.

Lemma enter_items_mark (file : string) (body : list item) :
  forall s : tu,
    In PragmaOnce body ->
    In file (once_files (fold_left (enter_item file) body s)).
Proof.
  induction body as [| i body IH]; intros s H; cbn; [contradiction |].
  destruct H as [-> | H].
  - apply enter_items_keep_marks. cbn. now left.
  - now apply IH.
Qed.

Lemma include_file_marks (file : string) (body : list item) (s : tu) :
  In PragmaOnce body ->
  marked_once file (include_file file body s) = true.
Proof.
  intros H. unfold include_file.
  destruct (marked_once file s) eqn:E; [assumption |].
  apply marked_once_In. now apply enter_items_mark.
Qed.

Lemma include_file_idempotent (file : string) (body : list item) (s : tu) :
  In PragmaOnce body ->
  include_file file body (include_file file body s) = include_file file body s.
Proof.
  intros H. unfold include_file at 1.
  now rewrite include_file_marks.
Qed.

Lemma include_file_iter (file : string) (body : list item) (s : tu) (n : nat) :
  In PragmaOnce body ->
  Nat.iter (S n) (include_file file body) s = include_file file body s.
Proof.
  intros H. induction n as [| n IH]; [reflexivity |].
  change (Nat.iter (S (S n)) (include_file file body) s)
    with (include_file file body (Nat.iter (S n) (include_file file body) s)).
  rewrite IH. now apply include_file_idempotent.
Qed.

Lemma header_is_guarded : In PragmaOnce SkyLightBridge_h.
Proof. cbn. now left. Qed.

(** Without its first line the header would declare everything again on a
    second inclusion. *)
Lemma unguarded_header_repeats :
  surface (emitted (include_file header_name unguarded_header
                      (include_file header_name unguarded_header empty_tu)))
  = (surface SkyLightBridge_h ++ surface SkyLightBridge_h)%list.
Proof. reflexivity. Qed.

(** The header names no integer constant and holds no statement: it gives
    no table of error codes and no code that inspects or forwards a result. *)
Lemma no_error_code_table :
  named_constants SkyLightBridge_h = [] /\ bodies SkyLightBridge_h = [].
Proof. split; reflexivity. Qed.

(** ** Theorems *)

(** C1: the header's own lines declare exactly four symbols: the type alias
    CGError and the functions CGSCopyManagedDisplaySpaces,
    CGSSetDesktopImageURL and CGSMainConnectionID, each once; no
    variable and no macro is declared, and a symbol of any kind is
    declared only if it is one of these four. *)
Theorem surface_is_three_functions_and_one_alias :
  surface SkyLightBridge_h =
    [ (KType, "CGError");
      (KFunction, "CGSCopyManagedDisplaySpaces");
      (KFunction, "CGSSetDesktopImageURL");
      (KFunction, "CGSMainConnectionID") ]
  /\ names_of_kind KFunction SkyLightBridge_h =
       [ "CGSCopyManagedDisplaySpaces"; "CGSSetDesktopImageURL";
         "CGSMainConnectionID" ]
  /\ names_of_kind KType SkyLightBridge_h = [ "CGError" ]
  /\ names_of_kind KVariable SkyLightBridge_h = []
  /\ names_of_kind KMacro SkyLightBridge_h = []
  /\ (forall k n,
        In (k, n) (surface SkyLightBridge_h) <->
        (k = KType /\ n = "CGError")
        \/ (k = KFunction
            /\ (n = "CGSCopyManagedDisplaySpaces"
                \/ n = "CGSSetDesktopImageURL"
                \/ n = "CGSMainConnectionID"))).
Proof.
  repeat split; try reflexivity.
  - cbn. intros H.
    repeat (destruct H as [H | H]; [ inversion H; subst; auto 6 | ]).
    contradiction.
  - cbn. intros [[-> ->] | [-> [-> | [-> | ->]]]]; auto 6.
Qed.

(** The characterisation of the surface used at one symbol:
    CGSMainConnectionID is a declared function. *)
Lemma surface_witness :
  In (KFunction, "CGSMainConnectionID") (surface SkyLightBridge_h).
Proof.
  apply (proj2 (proj2 (proj2 (proj2 (proj2
           surface_is_three_functions_and_one_alias))))).
  right. split; [reflexivity | right; right; reflexivity].
Defined.

(** C2: CGSSetDesktopImageURL is declared with exactly four parameters,
    in this order: connection of type uint32_t, spaceID of type int64_t,
    url of type CFURLRef and options of type CFDictionaryRef; its result
    type is written CGError, which is the type int resolves to. *)
Theorem set_desktop_image_url_signature :
  lookup_fun SkyLightBridge_h "CGSSetDesktopImageURL" =
    Some (mkSig Extern (TName "CGError")
            (PList [ mkParam (TName "uint32_t") "connection";
                     mkParam (TName "int64_t") "spaceID";
                     mkParam (TName "CFURLRef") "url";
                     mkParam (TName "CFDictionaryRef") "options" ])
            None)
  /\ option_map arity (lookup_fun SkyLightBridge_h "CGSSetDesktopImageURL")
     = Some 4%nat
  /\ assoc "CGSSetDesktopImageURL" (protos (elaborate SkyLightBridge_h)) =
       Some (mkRsig
               (resolve (types (elaborate SkyLightBridge_h)) (TName "CGError"))
               [ ("connection", RUnsigned 32);
                 ("spaceID", RSigned 64);
                 ("url", ROpaqueRef "__CFURL");
                 ("options", ROpaqueRef "__CFDictionary") ])
  /\ resolve (types (elaborate SkyLightBridge_h)) (TName "CGError")
     = resolve (types (elaborate SkyLightBridge_h)) TInt.
Proof. repeat split. Qed.

(** X6: the declared signature of CGSCopyManagedDisplaySpaces.  The
    prototype has exactly one parameter, connection of type uint32_t, and
    the result type CFArrayRef; for every connection value c of that type,
    0 <= c < 2^32, the call on c has the opaque array reference type.
    What the array holds is not part of the declaration. *)
Theorem copy_managed_display_spaces_signature (c : Z) :
  (0 <= c < 2 ^ 32)%Z ->
  lookup_fun SkyLightBridge_h "CGSCopyManagedDisplaySpaces" =
    Some (mkSig Extern (TName "CFArrayRef")
            (PList [ mkParam (TName "uint32_t") "connection" ]) None)
  /\ option_map arity
       (lookup_fun SkyLightBridge_h "CGSCopyManagedDisplaySpaces")
     = Some 1%nat
  /\ resolve (types (elaborate SkyLightBridge_h)) (TName "uint32_t")
     = RUnsigned 32
  /\ resolve (types (elaborate SkyLightBridge_h)) (TName "CFArrayRef")
     = ROpaqueRef "__CFArray"
  /\ call_type SkyLightBridge_h "CGSCopyManagedDisplaySpaces" [VInt c]
     = Some (ROpaqueRef "__CFArray").
Proof.
  intros Hc. repeat split.
  rewrite (call_type_declared _ _
             (mkRsig (ROpaqueRef "__CFArray") [("connection", RUnsigned 32)]))
    by reflexivity.
  cbn [r_params r_ret args_ok has_type].
  apply in_range_unsigned in Hc. rewrite Hc. reflexivity.
Qed.

Lemma copy_managed_display_spaces_witness :
  call_type SkyLightBridge_h "CGSCopyManagedDisplaySpaces" [VInt 7]
  = Some (ROpaqueRef "__CFArray").
Proof.
  apply (copy_managed_display_spaces_signature 7). lia.
Defined.

(** X7: the declared signature of CGSMainConnectionID.  The prototype
    has the parameter list (void) and the result type uint32_t: it has no
    parameter, a call without arguments has the unsigned 32-bit type, a
    call with any argument is not typed, and the values of the result type
    are the integers from 0 to 2^32 - 1.  Which connection the value names
    is not part of the declaration. *)
Theorem main_connection_id_signature :
  lookup_fun SkyLightBridge_h "CGSMainConnectionID" =
    Some (mkSig Extern (TName "uint32_t") PVoid None)
  /\ option_map arity (lookup_fun SkyLightBridge_h "CGSMainConnectionID")
     = Some 0%nat
  /\ call_type SkyLightBridge_h "CGSMainConnectionID" [] = Some (RUnsigned 32)
  /\ (forall v args,
        call_type SkyLightBridge_h "CGSMainConnectionID" (v :: args) = None)
  /\ (forall z,
        in_range (resolve (types (elaborate SkyLightBridge_h))
                    (TName "uint32_t")) z = true
        <-> (0 <= z < 2 ^ 32)%Z).
Proof.
  do 4 (split; [reflexivity |]).
  intros z. rewrite elaborate_header. apply in_range_unsigned.
Qed.

Lemma main_connection_id_witness :
  in_range (resolve (types (elaborate SkyLightBridge_h)) (TName "uint32_t"))
    4294967295 = true.
Proof.
  apply (proj2 (proj2 (proj2 (proj2 main_connection_id_signature)))).
  lia.
Defined.

(** C5: CGError is a bare alias of int.  The name resolves to the very type
    int resolves to, a prototype written with CGError is the prototype
    written with int, and the values agree: every int value is a CGError
    value and every CGError value is an int value, so the alias adds no
    range restriction. *)
Theorem cgerror_is_int :
  resolve (types (elaborate SkyLightBridge_h)) (TName "CGError")
  = resolve (types (elaborate SkyLightBridge_h)) TInt
  /\ (forall ps,
        resolve_sig (types (elaborate SkyLightBridge_h)) (TName "CGError") ps
        = resolve_sig (types (elaborate SkyLightBridge_h)) TInt ps)
  /\ (forall z, CGError_value z <-> int_value z).
Proof.
  split; [reflexivity | split; [reflexivity |]].
  intros z. unfold CGError_value, int_value.
  rewrite elaborate_header. cbn [types resolve assoc String.eqb].
  change (RSigned 32) with (RSigned int_bits).
  apply in_range_signed.
Qed.

Lemma cgerror_is_int_witness : CGError_value (-1) /\ CGError_value 0.
Proof.
  split; apply (proj2 (proj2 cgerror_is_int)); unfold int_value, int_bits; lia.
Defined.

(** C7: none of the three declared functions has a body.  The header holds
    no statement (so no control flow and no algorithm), no variable (so no
    global or mutable state), no structure or enumeration and no macro;
    its functions are the three prototypes, and each of them is an extern
    declaration without a body. *)
Theorem declarations_have_no_body :
  bodies SkyLightBridge_h = []
  /\ data_definitions SkyLightBridge_h = []
  /\ names_of_kind KVariable SkyLightBridge_h = []
  /\ names_of_kind KMacro SkyLightBridge_h = []
  /\ map fst (functions SkyLightBridge_h) =
       [ "CGSCopyManagedDisplaySpaces"; "CGSSetDesktopImageURL";
         "CGSMainConnectionID" ]
  /\ (forall f s,
        In (f, s) (functions SkyLightBridge_h) ->
        f_body s = None /\ f_storage s = Extern).
Proof.
  do 5 (split; [reflexivity |]).
  intros f s H. cbn in H.
  repeat (destruct H as [H | H]; [ inversion H; subst; now split | ]).
  contradiction.
Qed.

Lemma declarations_have_no_body_witness :
  f_body (mkSig Extern (TName "uint32_t") PVoid None) = None
  /\ f_storage (mkSig Extern (TName "uint32_t") PVoid None) = Extern.
Proof.
  apply (proj2 (proj2 (proj2 (proj2 (proj2 declarations_have_no_body))))
           "CGSMainConnectionID").
  cbn. right. right. left. reflexivity.
Defined.


(** C9: space and connection identifiers have different integer domains.
    The spaceID parameter is a signed 64-bit integer, so a call with any
    space identifier from -2^63 to 2^63 - 1, the negative ones among them,
    is typed; every parameter named connection of every declared function,
    and the result of CGSMainConnectionID, is an unsigned 32-bit integer,
    whose values are never negative; -1 is a space identifier and not a
    connection identifier. *)
Theorem space_and_connection_domains :
  (forall sig,
     assoc "CGSSetDesktopImageURL" (protos (elaborate SkyLightBridge_h))
       = Some sig ->
     assoc "spaceID" (r_params sig) = Some (RSigned 64))
  /\ (forall c sp u o,
        (0 <= c < 2 ^ 32)%Z ->
        (- 2 ^ 63 <= sp < 2 ^ 63)%Z ->
        call_type SkyLightBridge_h "CGSSetDesktopImageURL"
          [VInt c; VInt sp; VRef "__CFURL" u; VRef "__CFDictionary" o]
        = Some (RSigned int_bits))
  /\ (forall f sig t,
        In (f, sig) (protos (elaborate SkyLightBridge_h)) ->
        In ("connection", t) (r_params sig) ->
        t = RUnsigned 32)
  /\ (forall sig,
        assoc "CGSMainConnectionID" (protos (elaborate SkyLightBridge_h))
          = Some sig ->
        r_ret sig = RUnsigned 32)
  /\ (forall z, in_range (RUnsigned 32) z = true -> (0 <= z)%Z)
  /\ in_range (RSigned 64) (-1) = true
  /\ in_range (RUnsigned 32) (-1) = false.
Proof.
  split; [| split; [| split; [| split; [| split; [| split]]]]].
  - intros sig H. rewrite elaborate_header in H. cbn in H.
    inversion H; subst. reflexivity.
  - intros c sp u o Hc Hsp.
    rewrite (call_type_declared _ _
               (mkRsig (RSigned 32)
                  [ ("connection", RUnsigned 32);
                    ("spaceID", RSigned 64);
                    ("url", ROpaqueRef "__CFURL");
                    ("options", ROpaqueRef "__CFDictionary") ]))
      by reflexivity.
    cbn [r_params r_ret args_ok has_type].
    apply in_range_unsigned in Hc.
    change (2 ^ 63)%Z with (2 ^ (64 - 1))%Z in Hsp.
    apply in_range_signed in Hsp.
    rewrite Hc, Hsp. reflexivity.
  - intros f sig t H Hp. rewrite elaborate_header in H. cbn in H.
    repeat (destruct H as [H | H];
            [ inversion H; subst; cbn in Hp;
              repeat (destruct Hp as [Hp | Hp];
                      [ inversion Hp; subst; reflexivity
                      | try discriminate ]);
              try contradiction
            | ]).
    contradiction.
  - intros sig H. rewrite elaborate_header in H. cbn in H.
    inversion H; subst. reflexivity.
  - intros z H. apply in_range_unsigned in H. lia.
  - reflexivity.
  - reflexivity.
Qed.

Lemma space_and_connection_domains_witness :
  call_type SkyLightBridge_h "CGSSetDesktopImageURL"
    [VInt 1; VInt (-9223372036854775808); VRef "__CFURL" 0;
     VRef "__CFDictionary" 0]
  = Some (RSigned int_bits).
Proof.
  apply (proj1 (proj2 space_and_connection_domains)); lia.
Defined.

(** ** Further properties of the header *)

(** *** Arguments against parameters *)

Lemma has_type_unsigned (b : Z) (v : cvalue) :
  has_type (RUnsigned b) v = true <->
  exists z, v = VInt z /\ (0 <= z < 2 ^ b)%Z.
Proof.
  destruct v as [z | tag a]; cbn [has_type]; split.
  - intros H. exists z. split; [reflexivity | now apply in_range_unsigned].
  - intros [z' [E H]]. inversion E; subst. now apply in_range_unsigned.
  - discriminate.
  - intros [z' [E _]]. discriminate.
Qed.

Lemma has_type_signed (b : Z) (v : cvalue) :
  has_type (RSigned b) v = true <->
  exists z, v = VInt z /\ (- 2 ^ (b - 1) <= z < 2 ^ (b - 1))%Z.
Proof.
  destruct v as [z | tag a]; cbn [has_type]; split.
  - intros H. exists z. split; [reflexivity | now apply in_range_signed].
  - intros [z' [E H]]. inversion E; subst. now apply in_range_signed.
  - discriminate.
  - intros [z' [E _]]. discriminate.
Qed.

Lemma has_type_ref (t : string) (v : cvalue) :
  has_type (ROpaqueRef t) v = true <-> exists a, v = VRef t a.
Proof.
  destruct v as [z | tag a]; cbn [has_type]; split.
  - discriminate.
  - intros [a E]. discriminate.
  - intros H. apply String.eqb_eq in H. subst. now exists a.
  - intros [a' E]. inversion E; subst. apply String.eqb_refl.
Qed.

Lemma args_ok_nil (args : list cvalue) :
  args_ok [] args = true <-> args = [].
Proof.
  destruct args; cbn; split; intros H; try reflexivity; discriminate.
Qed.

Lemma args_ok_cons (n : string) (r : rtype) (ps : list (string * rtype))
      (args : list cvalue) :
  args_ok ((n, r) :: ps) args = true <->
  exists v rest,
    args = v :: rest /\ has_type r v = true /\ args_ok ps rest = true.
Proof.
  destruct args as [| v rest]; cbn [args_ok]; split.
  - discriminate.
  - intros [v [rest [E _]]]. discriminate.
  - rewrite andb_true_iff. intros [H1 H2]. now exists v, rest.
  - intros [v' [rest' [E [H1 H2]]]]. inversion E; subst.
    now rewrite H1, H2.
Qed.

(** *** Items that reach the unit *)

Lemma enter_items_emitted (file : string) (body : list item) :
  forall s : tu,
    emitted (fold_left (enter_item file) body s)
    = (emitted s ++ emitted_items body)%list.
Proof.
  induction body as [| i body IH]; intros s; cbn [fold_left emitted_items filter].
  - now rewrite app_nil_r.
  - rewrite IH. destruct i; cbn [enter_item emitted]; try reflexivity;
      now rewrite <- app_assoc.
Qed.

Lemma enter_items_once_files (file : string) (body : list item) :
  forall (s : tu) (f : string),
    In f (once_files (fold_left (enter_item file) body s)) ->
    f = file \/ In f (once_files s).
Proof.
  induction body as [| i body IH]; intros s f H; cbn [fold_left] in H.
  - now right.
  - apply IH in H. destruct H as [H | H]; [now left |].
    destruct i; cbn in H; auto. destruct H as [H | H]; auto.
Qed.

(** X1: a translation unit that includes the header once or more, and
    nothing else, is left with the header's scope: the same typedefs and
    prototypes, so every call has the type it has in the header. *)
Theorem included_unit_has_header_scope (n : nat) :
  elaborate (emitted (Nat.iter (S n) include_header empty_tu))
  = elaborate SkyLightBridge_h
  /\ (forall f args,
        call_type (emitted (Nat.iter (S n) include_header empty_tu)) f args
        = call_type SkyLightBridge_h f args).
Proof.
  assert (E : Nat.iter (S n) include_header empty_tu
              = include_header empty_tu).
  { apply include_file_iter, header_is_guarded. }
  rewrite E. split; [reflexivity |].
  intros f args. unfold call_type.
  now change (elaborate (emitted (include_header empty_tu)))
    with (elaborate SkyLightBridge_h).
Qed.

(** X2: the header is self-contained.  Every typedef in its scope is a
    known type, and every prototype it declares has a known result type
    and known parameter types: no type name is used before the line that
    brings it into scope. *)
Theorem header_is_self_contained :
  forallb (fun p => known (snd p)) (types (elaborate SkyLightBridge_h)) = true
  /\ (forall f sig,
        In (f, sig) (protos (elaborate SkyLightBridge_h)) ->
        sig_known sig = true).
Proof.
  split; [reflexivity |].
  intros f sig H. rewrite elaborate_header in H. cbn [protos] in H.
  repeat (destruct H as [H | H]; [ inversion H; subst; reflexivity | ]).
  contradiction.
Qed.

Lemma header_is_self_contained_witness :
  sig_known
    (mkRsig (RSigned 32)
       [ ("connection", RUnsigned 32);
         ("spaceID", RSigned 64);
         ("url", ROpaqueRef "__CFURL");
         ("options", ROpaqueRef "__CFDictionary") ]) = true.
Proof.
  apply (proj2 header_is_self_contained "CGSSetDesktopImageURL").
  rewrite elaborate_header. cbn. right. left. reflexivity.
Defined.

(** *** The calls the header allows *)

Lemma args_ok_connection (args : list cvalue) :
  args_ok [("connection", RUnsigned 32)] args = true <->
  exists c, args = [VInt c] /\ (0 <= c < 2 ^ 32)%Z.
Proof.
  rewrite args_ok_cons. split.
  - intros [v [rest [-> [Hv Hr]]]].
    apply has_type_unsigned in Hv. destruct Hv as [c [-> Hc]].
    apply args_ok_nil in Hr. subst. now exists c.
  - intros [c [-> Hc]]. exists (VInt c), []. split; [reflexivity |].
    split; [| reflexivity]. apply has_type_unsigned. now exists c.
Qed.

Lemma args_ok_set_image (args : list cvalue) :
  args_ok [ ("connection", RUnsigned 32);
            ("spaceID", RSigned 64);
            ("url", ROpaqueRef "__CFURL");
            ("options", ROpaqueRef "__CFDictionary") ] args = true <->
  exists c sp u o,
    args = [VInt c; VInt sp; VRef "__CFURL" u; VRef "__CFDictionary" o]
    /\ (0 <= c < 2 ^ 32)%Z /\ (- 2 ^ 63 <= sp < 2 ^ 63)%Z.
Proof.
  split.
  - intros H.
    apply args_ok_cons in H. destruct H as [v1 [r1 [-> [H1 H]]]].
    apply args_ok_cons in H. destruct H as [v2 [r2 [-> [H2 H]]]].
    apply args_ok_cons in H. destruct H as [v3 [r3 [-> [H3 H]]]].
    apply args_ok_cons in H. destruct H as [v4 [r4 [-> [H4 H]]]].
    apply args_ok_nil in H. subst r4.
    apply has_type_unsigned in H1. destruct H1 as [c [-> Hc]].
    apply has_type_signed in H2. destruct H2 as [sp [-> Hsp]].
    apply has_type_ref in H3. destruct H3 as [u ->].
    apply has_type_ref in H4. destruct H4 as [o ->].
    exists c, sp, u, o. auto.
  - intros [c [sp [u [o [-> [Hc Hsp]]]]]].
    cbn [args_ok has_type].
    apply in_range_unsigned in Hc.
    change (2 ^ 63)%Z with (2 ^ (64 - 1))%Z in Hsp.
    apply in_range_signed in Hsp.
    now rewrite Hc, Hsp, !String.eqb_refl.
Qed.

(** *** Calls on arguments as written *)

Lemma pow2_split (b : Z) : (0 < b)%Z -> (2 ^ b = 2 * 2 ^ (b - 1))%Z.
Proof.
  intros H. replace b with (Z.succ (b - 1)) at 1 by lia.
  apply Z.pow_succ_r. lia.
Qed.

Lemma wrap_in_range (r : rtype) (z : Z) :
  positive_width r ->
  match r with
  | RSigned _ => in_range r (wrap r z) = true
  | RUnsigned _ => in_range r (wrap r z) = true
  | _ => True
  end.
Proof.
  destruct r as [| b | b | t | n]; cbn [positive_width wrap]; intros H;
    try exact I.
  - apply in_range_signed.
    assert (P : (0 < 2 ^ (b - 1))%Z) by (apply Z.pow_pos_nonneg; lia).
    pose proof (pow2_split b H) as E.
    pose proof (Z.mod_pos_bound (z + 2 ^ (b - 1)) (2 ^ b)) as B.
    lia.
  - apply in_range_unsigned.
    apply Z.mod_pos_bound. apply Z.pow_pos_nonneg; lia.
Qed.

Lemma wrap_id (r : rtype) (z : Z) :
  positive_width r -> in_range r z = true -> wrap r z = z.
Proof.
  destruct r as [| b | b | t | n]; cbn [positive_width wrap]; intros H R;
    try reflexivity.
  - apply in_range_signed in R.
    pose proof (pow2_split b H) as E.
    rewrite Z.mod_small by lia. lia.
  - apply in_range_unsigned in R. now apply Z.mod_small.
Qed.

Lemma convert_has_type (r : rtype) (a : carg) (v : cvalue) :
  positive_width r -> convert r a = Some v -> has_type r v = true.
Proof.
  intros W C.
  destruct r as [| b | b | t | n]; destruct a as [z | | t' addr];
    cbn [convert] in C; try discriminate.
  - inversion C; subst. apply (wrap_in_range (RSigned b) z W).
  - inversion C; subst. cbn [has_type]. apply in_range_signed.
    cbn in W. assert (0 < 2 ^ (b - 1))%Z by (apply Z.pow_pos_nonneg; lia).
    lia.
  - inversion C; subst. apply (wrap_in_range (RUnsigned b) z W).
  - inversion C; subst. cbn [has_type]. apply in_range_unsigned.
    cbn in W. assert (0 < 2 ^ b)%Z by (apply Z.pow_pos_nonneg; lia).
    lia.
  - inversion C; subst. cbn [has_type]. apply String.eqb_refl.
  - destruct (String.eqb t t') eqn:E; [| discriminate].
    inversion C; subst. cbn [has_type]. apply String.eqb_refl.
Qed.

Lemma convert_args_sound (ps : list (string * rtype)) :
  forall (args : list carg) (vs : list cvalue),
    Forall positive_width (map snd ps) ->
    convert_args ps args = Some vs ->
    args_ok ps vs = true /\ length args = length ps.
Proof.
  induction ps as [| [n r] ps IH]; intros [| a args] vs W C;
    cbn [convert_args] in C; try discriminate.
  - inversion C; subst. now split.
  - destruct (convert r a) as [v |] eqn:Cv; [| discriminate].
    destruct (convert_args ps args) as [vs' |] eqn:Cs; [| discriminate].
    inversion C; subst. cbn [map snd] in W. inversion W; subst.
    destruct (IH args vs' H2 Cs) as [Ok Len].
    split.
    + cbn [args_ok]. rewrite (convert_has_type r a v H1 Cv). exact Ok.
    + cbn [length]. now rewrite Len.
Qed.

Lemma call_converted_declared (h : list item) (f : string) (s : rsig)
      (args : list carg) :
  assoc f (protos (elaborate h)) = Some s ->
  call_converted h f args =
  match convert_args (r_params s) args with
  | Some vs => Some (vs, r_ret s)
  | None => None
  end.
Proof. intros H. unfold call_converted. now rewrite H. Qed.

(** X3: calls on arguments as written, with C's conversion of arguments.
    A call that is accepted names one of the three functions and has the
    declared number of arguments (1, 4, 0), and the values the callee
    receives belong to the parameters' types.  An integer of any value is
    accepted for connection and reaches the callee reduced modulo 2^32, and
    an integer of any value is accepted for spaceID and reaches it wrapped
    into the signed 64-bit range; a value already in range arrives
    unchanged.  The constant 0 is accepted for the options dictionary as
    the null reference. *)
Theorem typed_calls_after_conversion :
  (forall f args vs t,
     call_converted SkyLightBridge_h f args = Some (vs, t) ->
     call_type SkyLightBridge_h f vs = Some t
     /\ ((f = "CGSCopyManagedDisplaySpaces" /\ length args = 1%nat)
         \/ (f = "CGSSetDesktopImageURL" /\ length args = 4%nat)
         \/ (f = "CGSMainConnectionID" /\ length args = 0%nat)))
  /\ (forall c,
        call_converted SkyLightBridge_h "CGSCopyManagedDisplaySpaces"
          [AInt c]
        = Some ([VInt (c mod 2 ^ 32)], ROpaqueRef "__CFArray"))
  /\ (forall c sp u o,
        call_converted SkyLightBridge_h "CGSSetDesktopImageURL"
          [AInt c; AInt sp; ARef "__CFURL" u; ARef "__CFDictionary" o]
        = Some ([ VInt (c mod 2 ^ 32);
                  VInt ((sp + 2 ^ 63) mod 2 ^ 64 - 2 ^ 63);
                  VRef "__CFURL" u;
                  VRef "__CFDictionary" o ],
                RSigned int_bits))
  /\ (forall c sp u,
        call_converted SkyLightBridge_h "CGSSetDesktopImageURL"
          [AInt c; AInt sp; ARef "__CFURL" u; AZero]
        = Some ([ VInt (c mod 2 ^ 32);
                  VInt ((sp + 2 ^ 63) mod 2 ^ 64 - 2 ^ 63);
                  VRef "__CFURL" u;
                  VRef "__CFDictionary" 0 ],
                RSigned int_bits))
  /\ call_converted SkyLightBridge_h "CGSMainConnectionID" []
     = Some ([], RUnsigned 32)
  /\ (forall c, (0 <= c < 2 ^ 32)%Z -> (c mod 2 ^ 32 = c)%Z)
  /\ (forall sp,
        (- 2 ^ 63 <= sp < 2 ^ 63)%Z ->
        ((sp + 2 ^ 63) mod 2 ^ 64 - 2 ^ 63 = sp)%Z).
Proof.
  split; [| split; [| split; [| split; [| split; [| split]]]]].
  - intros f args vs t H. unfold call_converted in H.
    rewrite elaborate_header in H. cbn [protos assoc] in H.
    destruct (String.eqb_spec f "CGSCopyManagedDisplaySpaces") as [-> | N1];
      [| destruct (String.eqb_spec f "CGSSetDesktopImageURL") as [-> | N2];
         [| destruct (String.eqb_spec f "CGSMainConnectionID")
              as [-> | N3]]];
      cbn [r_params r_ret] in H; try discriminate;
      (destruct (convert_args _ args) as [vs' |] eqn:E; [| discriminate]);
      inversion H; subst; clear H;
      (apply convert_args_sound in E;
       [| repeat constructor; cbn; try lia; exact I]);
      destruct E as [Ok Len]; cbn [length] in Len.
    + split; [| now left].
      rewrite (call_type_declared _ _
                 (mkRsig (ROpaqueRef "__CFArray")
                    [("connection", RUnsigned 32)])) by reflexivity.
      cbn [r_params r_ret]. now rewrite Ok.
    + split; [| right; now left].
      rewrite (call_type_declared _ _
                 (mkRsig (RSigned 32)
                    [ ("connection", RUnsigned 32);
                      ("spaceID", RSigned 64);
                      ("url", ROpaqueRef "__CFURL");
                      ("options", ROpaqueRef "__CFDictionary") ]))
        by reflexivity.
      cbn [r_params r_ret]. now rewrite Ok.
    + split; [| right; now right].
      rewrite (call_type_declared _ _ (mkRsig (RUnsigned 32) []))
        by reflexivity.
      cbn [r_params r_ret]. now rewrite Ok.
  - intros c.
    rewrite (call_converted_declared _ _
               (mkRsig (ROpaqueRef "__CFArray")
                  [("connection", RUnsigned 32)])) by reflexivity.
    reflexivity.
  - intros c sp u o.
    rewrite (call_converted_declared _ _
               (mkRsig (RSigned 32)
                  [ ("connection", RUnsigned 32);
                    ("spaceID", RSigned 64);
                    ("url", ROpaqueRef "__CFURL");
                    ("options", ROpaqueRef "__CFDictionary") ]))
      by reflexivity.
    reflexivity.
  - intros c sp u.
    rewrite (call_converted_declared _ _
               (mkRsig (RSigned 32)
                  [ ("connection", RUnsigned 32);
                    ("spaceID", RSigned 64);
                    ("url", ROpaqueRef "__CFURL");
                    ("options", ROpaqueRef "__CFDictionary") ]))
      by reflexivity.
    reflexivity.
  - reflexivity.
  - intros c Hc.
    apply (wrap_id (RUnsigned 32) c); [cbn; lia |].
    now apply in_range_unsigned.
  - intros sp Hsp.
    apply (wrap_id (RSigned 64) sp); [cbn; lia |].
    now apply in_range_signed.
Qed.

Lemma typed_calls_after_conversion_witness :
  call_type SkyLightBridge_h "CGSCopyManagedDisplaySpaces" [VInt 4294967295]
  = Some (ROpaqueRef "__CFArray")
  /\ (("CGSCopyManagedDisplaySpaces" = "CGSCopyManagedDisplaySpaces"
       /\ length [AInt (-1)] = 1%nat)
      \/ ("CGSCopyManagedDisplaySpaces" = "CGSSetDesktopImageURL"
          /\ length [AInt (-1)] = 4%nat)
      \/ ("CGSCopyManagedDisplaySpaces" = "CGSMainConnectionID"
          /\ length [AInt (-1)] = 0%nat)).
Proof.
  apply (proj1 typed_calls_after_conversion
           "CGSCopyManagedDisplaySpaces" [AInt (-1)] [VInt 4294967295]
           (ROpaqueRef "__CFArray")).
  reflexivity.
Defined.

(** X4: the three functions compose.  Whatever value a call of
    CGSMainConnectionID yields, that is any value of its result type, is
    accepted as the connection argument of CGSCopyManagedDisplaySpaces and,
    with any signed 64-bit space identifier, a URL and a dictionary, of
    CGSSetDesktopImageURL. *)
Theorem main_connection_feeds_the_others (r : rtype) (v : cvalue)
        (sp u o : Z) :
  call_type SkyLightBridge_h "CGSMainConnectionID" [] = Some r ->
  has_type r v = true ->
  (- 2 ^ 63 <= sp < 2 ^ 63)%Z ->
  call_type SkyLightBridge_h "CGSCopyManagedDisplaySpaces" [v]
  = Some (ROpaqueRef "__CFArray")
  /\ call_type SkyLightBridge_h "CGSSetDesktopImageURL"
       [v; VInt sp; VRef "__CFURL" u; VRef "__CFDictionary" o]
     = Some (RSigned int_bits).
Proof.
  intros Hr Hv Hsp.
  assert (E : call_type SkyLightBridge_h "CGSMainConnectionID" []
              = Some (RUnsigned 32)) by reflexivity.
  rewrite E in Hr. inversion Hr; subst r. clear Hr E.
  apply has_type_unsigned in Hv. destruct Hv as [c [-> Hc]].
  split.
  - rewrite (call_type_declared _ _
               (mkRsig (ROpaqueRef "__CFArray")
                  [("connection", RUnsigned 32)])) by reflexivity.
    cbn [r_params r_ret].
    assert (A : args_ok [("connection", RUnsigned 32)] [VInt c] = true).
    { apply args_ok_connection. now exists c. }
    now rewrite A.
  - rewrite (call_type_declared _ _
               (mkRsig (RSigned 32)
                  [ ("connection", RUnsigned 32);
                    ("spaceID", RSigned 64);
                    ("url", ROpaqueRef "__CFURL");
                    ("options", ROpaqueRef "__CFDictionary") ]))
      by reflexivity.
    cbn [r_params r_ret].
    assert (A : args_ok
                  [ ("connection", RUnsigned 32);
                    ("spaceID", RSigned 64);
                    ("url", ROpaqueRef "__CFURL");
                    ("options", ROpaqueRef "__CFDictionary") ]
                  [VInt c; VInt sp; VRef "__CFURL" u; VRef "__CFDictionary" o]
                = true).
    { apply args_ok_set_image. exists c, sp, u, o. auto. }
    now rewrite A.
Qed.

Lemma main_connection_feeds_the_others_witness :
  call_type SkyLightBridge_h "CGSCopyManagedDisplaySpaces" [VInt 4294967295]
  = Some (ROpaqueRef "__CFArray")
  /\ call_type SkyLightBridge_h "CGSSetDesktopImageURL"
       [VInt 4294967295; VInt (-1); VRef "__CFURL" 0; VRef "__CFDictionary" 0]
     = Some (RSigned int_bits).
Proof.
  apply (main_connection_feeds_the_others (RUnsigned 32) (VInt 4294967295)
           (-1) 0 0).
  - reflexivity.
  - reflexivity.
  - lia.
Defined.

(** X5: including the header into a translation unit in any state only
    adds to it.  The files marked once afterwards are those marked before
    and the header; a unit that has the header marked is left as it is; a
    unit that has not keeps every item it holds, in order, followed by the
    header's lines after the pragma. *)
Theorem inclusion_extends_the_unit (s : tu) :
  (forall f,
     In f (once_files (include_header s)) <->
     f = header_name \/ In f (once_files s))
  /\ (marked_once header_name s = true -> include_header s = s)
  /\ (marked_once header_name s = false ->
      emitted (include_header s) = (emitted s ++ unguarded_header)%list).
Proof.
  unfold include_header, include_file.
  destruct (marked_once header_name s) eqn:M.
  - split; [| split; [reflexivity | discriminate]].
    intros f. split; [now right |].
    intros [-> | H]; [now apply marked_once_In | assumption].
  - split; [| split; [discriminate |]].
    + intros f. split.
      * apply enter_items_once_files.
      * intros [-> | H].
        -- apply enter_items_mark, header_is_guarded.
        -- now apply enter_items_keep_marks.
    + intros _. now rewrite enter_items_emitted.
Qed.

Lemma inclusion_extends_the_unit_witness :
  emitted (include_header (mkTu ["Other.h"] [Typedef TInt "pid"]))
  = ([Typedef TInt "pid"] ++ unguarded_header)%list.
Proof.
  apply (proj2 (proj2 (inclusion_extends_the_unit
                         (mkTu ["Other.h"] [Typedef TInt "pid"])))).
  reflexivity.
Defined.
